(** * Task Logs Dashboard: the aggregation logic of [src/app.py]

    The dashboard fetches a table of log events and derives, in memory,
    an alert banner, five key metrics, a latest-run table, per-script
    statistics, a daily trend and a level distribution.  This file embeds
    those derivations as functions over a list of rows and proves the
    properties the specification states about them.

    Modelling choices.
    - A [DataFrame] is the list of its rows, in row order.
    - [created_at] is a pandas [Timestamp]: an integer count of
      nanoseconds on the time line the timestamp carries.  Its calendar
      date ([.dt.date]) is the floor quotient by the length of a day.
    - Strings are byte strings; Python's [==] on [str] is equality and
      [sorted] compares code points, which on UTF-8 bytes is the
      byte-wise lexicographic order [String.leb].
    - [sort_values(..., ascending=False)] is a pandas call whose default
      algorithm (quicksort) promises a sorted permutation and nothing
      about the order of equal keys.  It is a parameter of the
      development together with exactly that contract.
    - The success rate is the exact rational [success / total * 100];
      the rounding of the float quotient and the [.1f] / [strftime]
      renderings belong to the presentation and are not modelled. *)

From HB Require Import structures.
From Stdlib Require Import ZArith QArith String Ascii Lia.
From mathcomp Require Import boot.

Set Implicit Arguments.
Unset Strict Implicit.
Unset Printing Implicit Defensive.

Local Open Scope nat_scope.

(** ** Equality structures for the column types *)

HB.instance Definition _ := hasDecEq.Build string String.eqb_spec.
HB.instance Definition _ := hasDecEq.Build Z Z.eqb_spec.
HB.instance Definition _ := hasDecEq.Build positive Pos.eqb_spec.

Definition Q_to_pair (q : Q) : Z * positive := (Qnum q, Qden q).
Definition pair_to_Q (p : Z * positive) : Q := Qmake p.1 p.2.
Lemma Q_pairK : cancel Q_to_pair pair_to_Q.
Proof. by case. Qed.
HB.instance Definition _ := Equality.copy Q (can_type Q_pairK).

(** ** The data model *)

(** One row of the [task_logs] table. *)
Record LogEvent := mkLogEvent {
  task_name : string;
  level : string;
  message : string;
  run_source : string;
  created_at : Z
}.

Definition LogEvent_to_tuple (e : LogEvent) :=
  (task_name e, level e, message e, run_source e, created_at e).
Definition tuple_to_LogEvent (t : string * string * string * string * Z) :=
  let: (n, l, m, r, c) := t in mkLogEvent n l m r c.
Lemma LogEvent_tupleK : cancel LogEvent_to_tuple tuple_to_LogEvent.
Proof. by case. Qed.
HB.instance Definition _ := Equality.copy LogEvent (can_type LogEvent_tupleK).

Definition DataFrame := seq LogEvent.

(** Nanoseconds in a calendar day. *)
Definition ns_per_day : Z := 86400000000000.

(** [Timestamp.date()], as the number of the day. *)
Definition date_of (t : Z) : Z := (t / ns_per_day)%Z.

(** ** The pandas and Python primitives the page calls *)

Section Primitives.

Variables (R : Type) (K : eqType).

(** [Series.unique()]: the distinct values, in order of first appearance. *)
Fixpoint unique_from (seen s : seq K) : seq K :=
  if s is x :: s' then
    if x \in seen then unique_from seen s'
    else x :: unique_from (x :: seen) s'
  else [::].

Definition unique (s : seq K) : seq K := unique_from [::] s.

(** [Series.nunique()]. *)
Definition nunique (s : seq K) : nat := size (unique s).

(** [DataFrame.drop_duplicates(col)]: of the rows that agree on the
    column, the first one is kept ([keep='first']); the others go. *)
Fixpoint drop_duplicates_from (col : R -> K) (seen : seq K) (df : seq R) : seq R :=
  if df is e :: df' then
    if col e \in seen then drop_duplicates_from col seen df'
    else e :: drop_duplicates_from col (col e :: seen) df'
  else [::].

Definition drop_duplicates (col : R -> K) (df : seq R) : seq R :=
  drop_duplicates_from col [::] df.

(** [df.groupby(key).size()]: one entry per key present, the keys in
    ascending order (groupby sorts its group keys), each with the number
    of rows of its group. *)
Definition groupby_size (leK : rel K) (key : R -> K) (df : seq R) : seq (K * nat) :=
  [seq (k, size [seq e <- df | key e == k]) | k <- sort leK (unique (map key df))].

End Primitives.

(** The classification of levels. *)
Definition INFO : string := "INFO".
Definition ERROR : string := "ERROR".
Definition CRITICAL : string := "CRITICAL".
Definition WARNING : string := "WARNING".

(** [df['level'] == 'INFO'] and [df['level'].isin(['ERROR', 'CRITICAL'])],
    as row masks. *)
Definition is_info (e : LogEvent) : bool := level e == INFO.
Definition is_error (e : LogEvent) : bool := level e \in [:: ERROR; CRITICAL].

(** A level the page classifies, as a success or as a failure. *)
Definition classified (e : LogEvent) : bool :=
  level e \in [:: INFO; ERROR; CRITICAL].

(** [(success / total * 100) if total > 0 else 0]. *)
Definition rate (success total : nat) : Q :=
  if (0 < total)%N
  then (inject_Z (Z.of_nat success) / inject_Z (Z.of_nat total) * 100)%Q
  else 0%Q.

(** *** Alerts *)

Definition error_df (df : DataFrame) : DataFrame := [seq e <- df | is_error e].

Definition failed_scripts (df : DataFrame) : seq string :=
  unique (map task_name (error_df df)).

(** The alert banner: the error banner with the number of failing rows
    and the failed scripts, or the all-clear. *)
Inductive Alert :=
| AlertError (error_count : nat) (failed : seq string)
| AlertSuccess.

Definition alert (df : DataFrame) : Alert :=
  if nilp (error_df df) then AlertSuccess
  else AlertError (size (error_df df)) (failed_scripts df).

(** The alert state the banner shows. *)
Record AlertState := mkAlertState { hasAlert : bool; failedTasks : seq string }.

Definition computeAlertState (df : DataFrame) : AlertState :=
  match alert df with
  | AlertError _ failed => mkAlertState true failed
  | AlertSuccess => mkAlertState false [::]
  end.

(** *** Key metrics *)

Definition total_runs (df : DataFrame) : nat := size df.
Definition success_count (df : DataFrame) : nat := size [seq e <- df | is_info e].
Definition error_count (df : DataFrame) : nat := size [seq e <- df | is_error e].
Definition success_rate (df : DataFrame) : Q := rate (success_count df) (total_runs df).
Definition unique_scripts (df : DataFrame) : nat := nunique (map task_name df).

(** *** Task logs table *)

Record TableRow := mkTableRow {
  row_task_name : string;
  row_status : string;
  row_message : string;
  row_run_source : string;
  row_last_run : Z
}.

Definition status_success : string := "✅ Success".
Definition status_failure (lvl : string) : string := ("❌ " ++ lvl)%string.

Definition status (e : LogEvent) : string :=
  if level e == INFO then status_success else status_failure (level e).

Definition shown_message (e : LogEvent) : string :=
  if level e \in [:: ERROR; CRITICAL] then message e else "-"%string.

Definition table_row (e : LogEvent) : TableRow :=
  mkTableRow (task_name e) (status e) (shown_message e) (run_source e) (created_at e).

(** *** Script execution statistics *)

Record ScriptStats := mkScriptStats {
  Script : string;
  TotalRuns : nat;
  Success : nat;
  Failed : nat;
  SuccessRate : Q
}.

Definition ScriptStats_to_tuple (r : ScriptStats) :=
  (Script r, TotalRuns r, Success r, Failed r, SuccessRate r).
Definition tuple_to_ScriptStats (t : string * nat * nat * nat * Q) :=
  let: (n, t, s, f, q) := t in mkScriptStats n t s f q.
Lemma ScriptStats_tupleK : cancel ScriptStats_to_tuple tuple_to_ScriptStats.
Proof. by case. Qed.
HB.instance Definition _ := Equality.copy ScriptStats (can_type ScriptStats_tupleK).

(** The body of the loop over script names. *)
Definition script_row (df : DataFrame) (script_name : string) : ScriptStats :=
  let script_df := [seq e <- df | task_name e == script_name] in
  let total := size script_df in
  let success := size [seq e <- script_df | is_info e] in
  let error := size [seq e <- script_df | is_error e] in
  mkScriptStats script_name total success error (rate success total).

(** [sorted(df['task_name'].unique())]. *)
Definition sorted_scripts (df : DataFrame) : seq string :=
  sort String.leb (unique (map task_name df)).

Definition script_stats (df : DataFrame) : seq ScriptStats :=
  [seq script_row df script_name | script_name <- sorted_scripts df].

(** *** Execution trends *)

(** [df['created_at'].dt.date], row by row. *)
Definition event_date (e : LogEvent) : Z := date_of (created_at e).

Definition daily_stats (df : DataFrame) : seq (Z * nat) :=
  groupby_size Z.leb event_date df.

(** The order of two rows under [ascending=False]: the larger key first. *)
Definition descending (R : Type) (by_ : R -> Z) : rel R :=
  fun a b => (by_ b <=? by_ a)%Z.

(** [sort_values(by, ascending=False, kind='stable')]: the sort of pandas
    that keeps rows with equal keys in their input order.  It is an
    instance of the contract below, used to run the page on examples. *)
Definition stable_sort_values_desc (R : eqType) (by_ : R -> Z) (df : seq R) : seq R :=
  sort (descending by_) df.


(** ** Sample frames *)

(** A clock time on a numbered day, in nanoseconds. *)
Definition at_time (day hour minute : Z) : Z :=
  (day * ns_per_day + (hour * 3600 + minute * 60) * 1000000000)%Z.

(** Two scripts, one of which failed on its second run. *)
Definition sample_df : DataFrame :=
  [:: mkLogEvent "A" INFO "ok" "scheduled" (at_time 0 10 0);
      mkLogEvent "A" ERROR "boom" "scheduled" (at_time 0 11 0);
      mkLogEvent "B" INFO "ok" "manual" (at_time 0 10 30)].

(** The same rows in another order. *)
Definition sample_df_shuffled : DataFrame :=
  [:: mkLogEvent "B" INFO "ok" "manual" (at_time 0 10 30);
      mkLogEvent "A" ERROR "boom" "scheduled" (at_time 0 11 0);
      mkLogEvent "A" INFO "ok" "scheduled" (at_time 0 10 0)].

(** Two rows of one task with the same timestamp. *)
Definition tie_first : LogEvent := mkLogEvent "A" ERROR "first" "manual" (at_time 3 9 0).
Definition tie_second : LogEvent := mkLogEvent "A" INFO "second" "manual" (at_time 3 9 0).
Definition tie_df : DataFrame :=
  [:: mkLogEvent "A" INFO "old" "manual" (at_time 2 9 0); tie_first; tie_second].

(** Rows of a level the page does not classify. *)
Definition warning_df : DataFrame :=
  [:: mkLogEvent "A" WARNING "slow" "scheduled" (at_time 0 10 0);
      mkLogEvent "B" WARNING "slow" "scheduled" (at_time 2 10 0);
      mkLogEvent "A" WARNING "slow" "scheduled" (at_time 2 23 59)].

(** A remote table with runs on several days, one of them after the
    time of the visit. *)
Definition remote_rows : seq LogEvent :=
  [:: mkLogEvent "A" INFO "ok" "scheduled" (at_time 1 8 0);
      mkLogEvent "B" ERROR "boom" "scheduled" (at_time 4 8 0);
      mkLogEvent "A" INFO "ok" "manual" (at_time 5 9 30);
      mkLogEvent "C" INFO "ok" "manual" (at_time 6 1 0)].

Definition sample_now : Z := at_time 5 12 0.

(** ** The parts that sort rows by a column *)

Section Dashboard.

(** [sort_values(by, ascending=False)] and its contract. *)
Variable sort_values_desc : forall R : eqType, (R -> Z) -> seq R -> seq R.

Hypothesis sort_values_perm :
  forall (R : eqType) (by_ : R -> Z) (df : seq R),
    perm_eq (sort_values_desc by_ df) df.

Hypothesis sort_values_sorted :
  forall (R : eqType) (by_ : R -> Z) (df : seq R),
    sorted (descending by_) (sort_values_desc by_ df).

(** [df.sort_values('created_at', ascending=False).drop_duplicates('task_name')]. *)
Definition latest_runs (df : DataFrame) : DataFrame :=
  drop_duplicates task_name (sort_values_desc created_at df).

Definition table_data (df : DataFrame) : seq TableRow :=
  [seq table_row e | e <- latest_runs df].

(** [Series.value_counts()]: the count of every value present, the
    larger counts first. *)
Definition value_counts (K : eqType) (s : seq K) : seq (K * nat) :=
  sort_values_desc (fun p : K * nat => Z.of_nat p.2)
    [seq (v, count_mem v s) | v <- unique s].

Definition level_stats (df : DataFrame) : seq (string * nat) :=
  value_counts (map level df).

(** *** The page *)

Record Page := mkPage {
  page_alert : Alert;
  page_total_runs : nat;
  page_success : nat;
  page_failed : nat;
  page_success_rate : Q;
  page_total_scripts : nat;
  page_table : seq TableRow;
  page_script_stats : seq ScriptStats;
  page_daily : seq (Z * nat);
  page_levels : seq (string * nat)
}.

(** [if df.empty: st.warning(...) else: ...]: the empty frame renders the
    warning and nothing else. *)
Definition dashboard (df : DataFrame) : option Page :=
  if nilp df then None
  else Some (mkPage (alert df) (total_runs df) (success_count df) (error_count df)
               (success_rate df) (unique_scripts df) (table_data df)
               (script_stats df) (daily_stats df) (level_stats df)).

(** *** Fetching the rows *)

(** [.order('created_at', desc=True)]: the remote table answers with the
    selected rows ordered by the column, the largest first.  Like
    [sort_values] it is known by its contract. *)
Variable order_desc : forall R : eqType, (R -> Z) -> seq R -> seq R.

Hypothesis order_desc_perm :
  forall (R : eqType) (by_ : R -> Z) (rows : seq R),
    perm_eq (order_desc by_ rows) rows.

Hypothesis order_desc_sorted :
  forall (R : eqType) (by_ : R -> Z) (rows : seq R),
    sorted (descending by_) (order_desc by_ rows).

(** [end_date - timedelta(days=days)]. *)
Definition start_date (end_date days : Z) : Z := (end_date - days * ns_per_day)%Z.

(** [.gte('created_at', start_date).lte('created_at', end_date)]. *)
Definition in_range (start_date end_date : Z) (e : LogEvent) : bool :=
  (start_date <=? created_at e)%Z && (created_at e <=? end_date)%Z.

(** The query on the rows of the remote table. *)
Definition query_task_logs (table : seq LogEvent) (start_date end_date : Z)
  : seq LogEvent :=
  order_desc created_at [seq e <- table | in_range start_date end_date e].

(** [fetch_task_logs(days)], called at the time [now], the instant that
    [end_date] denotes on the time line of the column.  The client and
    the transport are outside the program: [remote] is the remote table
    when the call answers, with every row the query selects, and [None]
    when the [try] block raises an exception, which the [except] branch
    turns into the empty frame.  The credentials check of
    [get_supabase_client], which halts the script, and the reuse of an
    earlier answer by the cache are not part of the model. *)
Definition fetch_task_logs (remote : option (seq LogEvent)) (now days : Z)
  : DataFrame :=
  if remote is Some table then
    let end_date := now in
    let data := query_task_logs table (start_date end_date days) end_date in
    if nilp data then [::] else data
  else [::].

(** * Properties *)

(** ** Orders *)

Lemma string_leb_total : total String.leb.
Proof.
move=> a b; case: (String.leb_total a b) => ->; by rewrite ?orbT.
Qed.

Lemma string_leb_antisym : antisymmetric String.leb.
Proof. by move=> a b /andP [ab ba]; apply: String.leb_antisym. Qed.

Lemma string_compare_refl (a : string) : String.compare a a = Eq.
Proof.
elim: a => [|c a IH] //=.
by rewrite /Ascii.compare N.compare_refl.
Qed.

Lemma string_compare_lt_trans (a b c : string) :
  String.compare a b = Lt -> String.compare b c = Lt -> String.compare a c = Lt.
Proof.
elim: a b c => [|x a IH] [|y b] [|z c] //=.
rewrite /Ascii.compare.
case: (N.compare_spec (N_of_ascii x) (N_of_ascii y)) => xy //;
case: (N.compare_spec (N_of_ascii y) (N_of_ascii z)) => yz //;
case: (N.compare_spec (N_of_ascii x) (N_of_ascii z)) => xz //; try lia.
exact: IH.
Qed.

Lemma string_leb_trans : transitive String.leb.
Proof.
move=> b a c; rewrite /String.leb.
case ab: (String.compare a b) => //; case bc: (String.compare b c) => // _ _.
- by move/String.compare_eq_iff: ab bc => -> ->.
- by move/String.compare_eq_iff: ab bc => -> ->.
- by move/String.compare_eq_iff: bc ab => <- ->.
- by rewrite (string_compare_lt_trans ab bc).
Qed.

Lemma Z_leb_total : total Z.leb.
Proof.
move=> a b; apply/orP.
by case: (Z.leb_spec a b) => H; [left | right; apply/Z.leb_le; lia].
Qed.

Lemma Z_leb_trans : transitive Z.leb.
Proof. move=> b a c /Z.leb_le ab /Z.leb_le bc; apply/Z.leb_le; lia. Qed.

Lemma Z_leb_antisym : antisymmetric Z.leb.
Proof. move=> a b /andP [/Z.leb_le ab /Z.leb_le ba]; lia. Qed.

Lemma descending_total (R : Type) (by_ : R -> Z) : total (descending by_).
Proof. by move=> a b; rewrite /descending orbC; apply: Z_leb_total. Qed.

Lemma descending_trans (R : Type) (by_ : R -> Z) : transitive (descending by_).
Proof. by move=> b a c ab bc; apply: Z_leb_trans bc ab. Qed.

(** ** Facts about the primitives *)

Section PrimitiveFacts.

Variables (R K : eqType).
Implicit Types (s seen : seq K) (df : seq R) (col : R -> K).

Lemma mem_unique_from seen s x :
  (x \in unique_from seen s) = (x \notin seen) && (x \in s).
Proof.
elim: s seen => [|y s IH] seen /=; first by rewrite andbF.
case: ifP => yseen; rewrite ?inE IH ?inE.
- case: (x =P y) => [->|_] //=; by rewrite yseen.
- case: (x =P y) => [->|_] /=; by rewrite ?yseen ?andbF.
Qed.

Lemma unique_from_uniq seen s : uniq (unique_from seen s).
Proof.
elim: s seen => [|y s IH] seen //=.
case: ifP => yseen //=.
by rewrite IH mem_unique_from inE eqxx.
Qed.

Lemma mem_unique s : unique s =i s.
Proof. by move=> x; rewrite mem_unique_from. Qed.

Lemma unique_uniq s : uniq (unique s).
Proof. exact: unique_from_uniq. Qed.

Lemma perm_unique s1 s2 : perm_eq s1 s2 -> perm_eq (unique s1) (unique s2).
Proof.
move=> s12; apply: uniq_perm; rewrite ?unique_uniq // => x.
by rewrite !mem_unique (perm_mem s12).
Qed.

Lemma map_drop_duplicates_from col seen df :
  map col (drop_duplicates_from col seen df) = unique_from seen (map col df).
Proof.
elim: df seen => [|e df IH] seen //=.
by case: ifP => _ /=; rewrite IH.
Qed.

Lemma map_drop_duplicates col df :
  map col (drop_duplicates col df) = unique (map col df).
Proof. exact: map_drop_duplicates_from. Qed.

(** A row survives [drop_duplicates] exactly when it is the first row of
    the frame with its value in the column. *)
Lemma drop_duplicates_fromP col seen df e :
  reflect (exists l1 l2, [/\ df = l1 ++ e :: l2, col e \notin seen
                           & col e \notin map col l1])
          (e \in drop_duplicates_from col seen df).
Proof.
apply: (iffP idP).
- elim: df seen => [|x df IH] seen //=.
  case: ifP => xseen.
  + move/IH => [l1 [l2 [-> eseen el1]]].
    exists (x :: l1), l2; split=> //=.
    rewrite inE negb_or el1 andbT.
    by apply: contraNneq eseen => ->.
  + rewrite inE => /orP [/eqP ->|/IH [l1 [l2 [-> eseen el1]]]].
      by exists [::], df; rewrite xseen.
    move: eseen; rewrite inE negb_or => /andP [ex eseen].
    by exists (x :: l1), l2; split=> //=; rewrite inE negb_or ex.
- move=> [l1 [l2 [-> ]]].
  elim: l1 seen => [|x l1 IH] seen /= eseen.
    by move=> _; rewrite (negbTE eseen) inE eqxx.
  rewrite inE negb_or => /andP [ex el1].
  case: ifP => _; first exact: IH.
  by rewrite inE IH ?orbT // inE negb_or ex.
Qed.

Lemma drop_duplicatesP col df e :
  reflect (exists l1 l2, df = l1 ++ e :: l2 /\ col e \notin map col l1)
          (e \in drop_duplicates col df).
Proof.
apply: (iffP (drop_duplicates_fromP col [::] df e)).
- by move=> [l1 [l2 [-> _ el1]]]; exists l1, l2.
- by move=> [l1 [l2 [-> el1]]]; exists l1, l2.
Qed.

(** Group sizes, summed over duplicate-free keys, count the rows whose
    key is among them. *)
Lemma sumn_group_counts (key : R -> K) df (ks : seq K) :
  uniq ks ->
  sumn [seq count (fun e => key e == k) df | k <- ks]
  = count (fun e => key e \in ks) df.
Proof.
elim: ks => [|k ks IH] /=; first by rewrite count_pred0.
move=> /andP [kks uks]; rewrite IH //.
elim: df {IH} => [|e df IHdf] //=.
rewrite addnACA IHdf inE; congr (_ + _).
case: (key e =P k) => [->|_] //=.
by rewrite (negbTE kks).
Qed.

Lemma sumn_group_counts_all (key : R -> K) df (ks : seq K) :
  uniq ks -> {subset map key df <= ks} ->
  sumn [seq count (fun e => key e == k) df | k <- ks] = size df.
Proof.
move=> uks sub; rewrite sumn_group_counts // -[RHS]count_predT.
apply: eq_in_count => e edf /=.
by rewrite sub // map_f.
Qed.

(** In a duplicate-free sorted list every element is strictly below
    the ones after it. *)
Lemma sorted_uniq_pairwise (le : rel K) s :
  transitive le -> uniq s -> sorted le s ->
  pairwise (fun a b => le a b && (a != b)) s.
Proof.
move=> le_tr us; rewrite (sorted_pairwise le_tr).
elim: s us => [|x s IH] //= /andP [xs us] /andP [lexs ps].
rewrite IH // andbT.
apply/allP => y ys; rewrite (allP lexs) //=.
by apply: contraNneq xs => ->.
Qed.

End PrimitiveFacts.

(** ** Latest run of each task *)

Lemma sort_values_nil (R : eqType) (by_ : R -> Z) :
  sort_values_desc by_ [::] = [::].
Proof. by apply/perm_nilP; apply: sort_values_perm. Qed.

Lemma mem_sort_values (R : eqType) (by_ : R -> Z) (df : seq R) :
  sort_values_desc by_ df =i df.
Proof. exact/perm_mem/sort_values_perm. Qed.

Lemma latest_runs_sub (df : DataFrame) : {subset latest_runs df <= df}.
Proof.
move=> e /drop_duplicatesP [l1 [l2 [eq_s _]]].
by rewrite -(mem_sort_values created_at) eq_s mem_cat inE eqxx orbT.
Qed.

(** The retained row of a task stands, in the sorted frame, before every
    other row of that task. *)
Lemma latest_runs_index (df : DataFrame) (e e' : LogEvent) :
  e \in latest_runs df -> task_name e' = task_name e ->
  index e (sort_values_desc created_at df) <= index e' (sort_values_desc created_at df).
Proof.
move=> /drop_duplicatesP [l1 [l2 [-> el1]]] same.
have notin x : task_name x = task_name e -> x \notin l1.
  by move=> eqx; apply: contra el1 => xl1; rewrite -eqx map_f.
by rewrite !index_cat (negbTE (notin e _)) // (negbTE (notin e' _)) //= eqxx addn0 leq_addr.
Qed.

Lemma latest_runs_max (df : DataFrame) (e e' : LogEvent) :
  e \in latest_runs df -> e' \in df -> task_name e' = task_name e ->
  (created_at e' <= created_at e)%Z.
Proof.
move=> /drop_duplicatesP [l1 [l2 [eq_s el1]]] e'df same.
have := sort_values_sorted created_at df.
rewrite (sorted_pairwise (@descending_trans _ _)) eq_s pairwise_cat /=.
move=> /and3P [_ _ /andP [el2 _]].
move: e'df; rewrite -(mem_sort_values created_at) eq_s mem_cat inE.
case/or3P => [e'l1|/eqP ->|e'l2]; last by apply/Z.leb_le; apply: (allP el2).
- by move: el1; rewrite -same map_f.
- exact: Z.le_refl.
Qed.

Lemma latest_runs_inj (df : DataFrame) (e e' : LogEvent) :
  e \in latest_runs df -> e' \in latest_runs df ->
  task_name e' = task_name e -> e' = e.
Proof.
move=> ein e'in same.
have le1 := latest_runs_index ein same.
have le2 := latest_runs_index e'in (esym same).
have eS : e \in sort_values_desc created_at df.
  by rewrite mem_sort_values; apply: latest_runs_sub.
have: index e' (sort_values_desc created_at df) = index e (sort_values_desc created_at df).
  by apply/eqP; rewrite eqn_leq le1 le2.
move=> eq_idx.
by rewrite -(nth_index e eS) -eq_idx nth_index // mem_sort_values; apply: latest_runs_sub.
Qed.

(** C1: [latest_runs] (computeLatestStatus) holds exactly one row per
    distinct task name, the empty frame gives the empty result, every
    retained row is a row of the frame whose [created_at] is the largest
    among the rows of its task, and the result is the first row per task
    of a frame that is the input sorted by [created_at] descending. *)
Theorem latest_runs_one_per_task_max (df : DataFrame) :
  latest_runs [::] = [::] /\
  [/\ uniq (map task_name (latest_runs df)),
      map task_name (latest_runs df) =i map task_name df,
      size (latest_runs df) = size (undup (map task_name df)),
      forall e, e \in latest_runs df ->
        e \in df /\
        forall e', e' \in df -> task_name e' = task_name e ->
          (created_at e' <= created_at e)%Z
    & exists sorted_df,
        [/\ perm_eq sorted_df df, sorted (descending created_at) sorted_df
          & latest_runs df = drop_duplicates task_name sorted_df]].
Proof.
have keys : map task_name (latest_runs df) =i map task_name df.
  move=> t; rewrite map_drop_duplicates mem_unique.
  by apply: perm_mem; rewrite perm_map.
have ukeys : uniq (map task_name (latest_runs df)).
  by rewrite map_drop_duplicates unique_uniq.
split; first by rewrite /latest_runs sort_values_nil.
split=> //.
- rewrite -(size_map task_name); apply/perm_size/uniq_perm; rewrite ?undup_uniq //.
  by move=> t; rewrite keys mem_undup.
- move=> e ein; split; first exact: latest_runs_sub.
  by move=> e'; apply: latest_runs_max.
- by exists (sort_values_desc created_at df); split.
Qed.

(** ** Levels, alerts and per-script statistics *)

Lemma is_errorE (e : LogEvent) :
  is_error e = (level e == ERROR) || (level e == CRITICAL).
Proof. by rewrite /is_error !inE. Qed.

Lemma classifiedE (e : LogEvent) : classified e = is_info e || is_error e.
Proof. by rewrite /classified /is_info /is_error !inE. Qed.

Lemma info_not_error (e : LogEvent) : ~~ (is_info e && is_error e).
Proof. by rewrite /is_info /is_error; case: eqP => // ->. Qed.

(** Successes, failures and unclassified rows partition any frame. *)
Lemma count_levels (df : DataFrame) :
  count is_info df + count is_error df + count (predC classified) df = size df.
Proof.
elim: df => [|e df IH] //=.
rewrite classifiedE -[in RHS]IH.
have := info_not_error e.
by case: (is_info e); case: (is_error e) => //= _; rewrite ?add0n ?addn0 ?addnS ?addSn.
Qed.

Lemma count_levels_le (df : DataFrame) :
  count is_info df + count is_error df <= size df
  /\ (count is_info df + count is_error df == size df) = all classified df.
Proof.
rewrite -(count_levels df); split; first exact: leq_addr.
rewrite -[X in X == _]addn0 eqn_add2l eq_sym all_count -(count_predC classified df).
by rewrite -[X in _ = (X == _)]addn0 eqn_add2l eq_sym.
Qed.

Lemma script_rowE (df : DataFrame) (t : string) :
  script_row df t =
  mkScriptStats t
    (count (fun e => task_name e == t) df)
    (count (fun e => (task_name e == t) && is_info e) df)
    (count (fun e => (task_name e == t) && is_error e) df)
    (rate (count (fun e => (task_name e == t) && is_info e) df)
          (count (fun e => task_name e == t) df)).
Proof.
rewrite /script_row !size_filter !count_filter.
have swap a : count (predI a (fun e => task_name e == t)) df
              = count (fun e => (task_name e == t) && a e) df.
  by apply: eq_count => e /=; rewrite andbC.
by rewrite !swap.
Qed.

Lemma sorted_scripts_uniq (df : DataFrame) : uniq (sorted_scripts df).
Proof. by rewrite sort_uniq unique_uniq. Qed.

Lemma mem_sorted_scripts (df : DataFrame) : sorted_scripts df =i map task_name df.
Proof. by move=> t; rewrite mem_sort mem_unique. Qed.

Lemma map_Script_stats (df : DataFrame) :
  map Script (script_stats df) = sorted_scripts df.
Proof. by rewrite /script_stats -map_comp map_id_in. Qed.

Lemma script_statsP (df : DataFrame) (r : ScriptStats) :
  reflect (Script r \in map task_name df /\ r = script_row df (Script r))
          (r \in script_stats df).
Proof.
apply: (iffP mapP) => [[t tin ->]|[tin ->]].
- by rewrite -mem_sorted_scripts.
- by exists (Script r); rewrite ?mem_sorted_scripts.
Qed.

Lemma rate_total0 (success : nat) : rate success 0 = 0%Q.
Proof. by []. Qed.

(** C2: for every task name of the frame, [script_stats]
    (computeTaskStats) has exactly one row; its total is the number of
    the task's rows, its success count the number of those with level
    INFO, its failure count the number with level ERROR or CRITICAL and
    its rate [success / total * 100], the rate being 0 for a total of 0;
    the rows of any other level are in the total and in neither count. *)
Theorem script_stats_counts (df : DataFrame) (t : string) :
  t \in map task_name df ->
  exists r,
    [/\ [seq r' <- script_stats df | Script r' == t] = [:: r],
        TotalRuns r = count (fun e => task_name e == t) df,
        Success r = count (fun e => (task_name e == t) && (level e == INFO)) df,
        Failed r = count (fun e => (task_name e == t)
                     && ((level e == ERROR) || (level e == CRITICAL))) df
      & [/\ SuccessRate r =
              (if TotalRuns r == 0 then 0%Q
               else (inject_Z (Z.of_nat (Success r))
                     / inject_Z (Z.of_nat (TotalRuns r)) * 100)%Q),
            forall success, rate success 0 = 0%Q
          & TotalRuns r = Success r + Failed r
              + count (fun e => (task_name e == t)
                  && (level e \notin [:: INFO; ERROR; CRITICAL])) df]].
Proof.
move=> tin; exists (script_row df t); rewrite script_rowE /=; split=> //.
- rewrite /script_stats filter_map (@eq_filter _ _ (pred1 t)) //.
  by rewrite filter_pred1_uniq ?sorted_scripts_uniq ?mem_sorted_scripts //= script_rowE.
- by apply: eq_count => e; rewrite is_errorE.
- split=> //; first by rewrite /rate lt0n; case: eqP.
  have := count_levels [seq e <- df | task_name e == t].
  rewrite size_filter !count_filter => <-.
  congr (_ + _ + _); apply: eq_count => e /=; by rewrite andbC.
Qed.

(** C3: the alert is raised exactly when some row has level ERROR or
    CRITICAL; the failed tasks are, without repetition, exactly the task
    names of such rows; a frame of WARNING rows raises no alert. *)
Theorem alert_state_iff_error_rows (df : DataFrame) :
  [/\ hasAlert (computeAlertState df)
        = has (fun e => (level e == ERROR) || (level e == CRITICAL)) df,
      uniq (failedTasks (computeAlertState df)),
      forall t, (t \in failedTasks (computeAlertState df))
        = has (fun e => ((level e == ERROR) || (level e == CRITICAL))
                        && (task_name e == t)) df
    & all (fun e => level e == WARNING) df ->
        computeAlertState df = mkAlertState false [::]].
Proof.
have hasE : has (fun e => (level e == ERROR) || (level e == CRITICAL)) df
            = ~~ nilp (error_df df).
  rewrite /nilp size_filter -lt0n -has_count.
  by apply: eq_has => e; rewrite is_errorE.
have failedE : failedTasks (computeAlertState df) = failed_scripts df.
  rewrite /computeAlertState /alert /failed_scripts.
  by case: (error_df df).
split.
- by rewrite hasE /computeAlertState /alert; case: ifP.
- by rewrite failedE unique_uniq.
- move=> t; rewrite failedE mem_unique.
  apply/mapP/hasP => [[e]|[e edf /andP [eerr /eqP <-]]].
    by rewrite mem_filter is_errorE => /andP [eerr edf] ->; exists e; rewrite // eerr eqxx.
  by exists e; rewrite // mem_filter is_errorE eerr.
- move=> allw; rewrite /computeAlertState /alert.
  have -> // : error_df df = [::].
  apply/eqP; rewrite -[_ == _]negbK -has_filter -all_predC.
  apply: sub_all allw => e /eqP lw.
  by rewrite /= /is_error lw.
Qed.

(** C10: in every row of [script_stats], and for the whole-frame
    metrics, success plus failure is at most the total, with equality
    exactly when every row of the group has a level among INFO, ERROR
    and CRITICAL; no row is both a success and a failure. *)
Theorem success_plus_failure_le_total (df : DataFrame) :
  [/\ forall r, r \in script_stats df ->
        Success r + Failed r <= TotalRuns r
        /\ (Success r + Failed r == TotalRuns r)
           = all (fun e => level e \in [:: INFO; ERROR; CRITICAL])
                 [seq e <- df | task_name e == Script r],
      success_count df + error_count df <= total_runs df,
      (success_count df + error_count df == total_runs df)
        = all (fun e => level e \in [:: INFO; ERROR; CRITICAL]) df
    & forall e : LogEvent,
        ~~ ((level e == INFO) && ((level e == ERROR) || (level e == CRITICAL)))].
Proof.
split.
- move=> r /script_statsP [_ ->].
  rewrite /script_row /= (size_filter is_info) (size_filter is_error).
  exact: count_levels_le.
- by rewrite /success_count /error_count /total_runs !size_filter; case: (count_levels_le df).
- by rewrite /success_count /error_count /total_runs !size_filter; case: (count_levels_le df).
- by move=> e; rewrite -is_errorE; apply: info_not_error.
Qed.

(** ** Counts across the views *)

Lemma sumn_value_counts (K : eqType) (s : seq K) :
  sumn [seq p.2 | p <- value_counts s] = size s.
Proof.
rewrite /value_counts.
rewrite (perm_sumn (perm_map _ (sort_values_perm _ _))) -map_comp.
rewrite -(@sumn_group_counts_all K K id s (unique s)) ?unique_uniq //.
  by move=> x; rewrite map_id mem_unique.
Qed.

Lemma sumn_script_totals (df : DataFrame) :
  sumn [seq TotalRuns r | r <- script_stats df] = size df.
Proof.
rewrite /script_stats -map_comp.
have <- := @sumn_group_counts_all _ _ task_name df _ (sorted_scripts_uniq df).
  by move=> t; rewrite mem_sorted_scripts.
by congr (sumn _); apply: eq_map => t /=; rewrite size_filter.
Qed.

(** C5: the views of one frame agree on the number of rows: the counts
    of [level_stats] (computeLevelDistribution) and the totals of
    [script_stats] each add up to the Total Runs metric, which is the
    number of rows. *)
Theorem views_agree_on_total_runs (df : DataFrame) :
  [/\ sumn [seq p.2 | p <- level_stats df] = total_runs df,
      sumn [seq TotalRuns r | r <- script_stats df] = total_runs df,
      total_runs df = size df
    & forall page, dashboard df = Some page ->
        sumn [seq p.2 | p <- page_levels page] = page_total_runs page
        /\ sumn [seq TotalRuns r | r <- page_script_stats page] = page_total_runs page].
Proof.
have levels : sumn [seq p.2 | p <- level_stats df] = total_runs df.
  by rewrite /level_stats sumn_value_counts size_map.
split=> //; first exact: sumn_script_totals.
rewrite /dashboard; case: ifP => // _ page [<-] /=.
by rewrite levels sumn_script_totals.
Qed.

(** ** Order of the per-script statistics *)

Lemma string_ltbE (a b : string) : String.ltb a b = String.leb a b && (a != b).
Proof.
rewrite /String.ltb /String.leb.
case ab: (String.compare a b); case: eqP => //.
- by move/String.compare_eq_iff: ab.
- by move=> eq_ab; rewrite eq_ab string_compare_refl in ab.
Qed.

Lemma script_row_perm (df df' : DataFrame) (t : string) :
  perm_eq df df' -> script_row df t = script_row df' t.
Proof. by move=> /permP eq_count; rewrite !script_rowE !eq_count. Qed.

Lemma sorted_scripts_perm (df df' : DataFrame) :
  perm_eq df df' -> sorted_scripts df = sorted_scripts df'.
Proof.
move=> dfdf'.
apply/(perm_sortP string_leb_total string_leb_trans string_leb_antisym).
by apply: perm_unique; rewrite perm_map.
Qed.

Lemma sorted_scripts_strict (df : DataFrame) : sorted String.ltb (sorted_scripts df).
Proof.
apply: pairwise_sorted.
apply: (@sub_pairwise _ (fun a b => String.leb a b && (a != b))).
  by move=> a b; rewrite string_ltbE.
apply: (sorted_uniq_pairwise string_leb_trans (sorted_scripts_uniq df)).
exact: (sort_sorted string_leb_total).
Qed.

(** C6: the rows of [script_stats] are in ascending lexicographic order
    of the script name, and any two frames with the same rows in any
    order give the same sequence of rows. *)
Theorem script_stats_sorted_perm_invariant (df df' : DataFrame) :
  perm_eq df df' ->
  [/\ script_stats df = script_stats df',
      sorted String.leb [seq Script r | r <- script_stats df]
    & sorted String.ltb [seq Script r | r <- script_stats df]].
Proof.
move=> dfdf'; split.
- rewrite /script_stats (sorted_scripts_perm dfdf').
  by apply: eq_map => t; apply: script_row_perm.
- by rewrite map_Script_stats; apply: (sort_sorted string_leb_total).
- by rewrite map_Script_stats; apply: sorted_scripts_strict.
Qed.

(** ** Daily trend *)

Lemma Z_ltbE (a b : Z) : Z.ltb a b = Z.leb a b && (a != b).
Proof.
case: eqP => [->|ne_ab]; first by rewrite Z.ltb_irrefl andbF.
rewrite andbT; case: (Z.ltb_spec a b) => H; case: (Z.leb_spec a b) => H' //; lia.
Qed.

Lemma map_fst_daily_stats (df : DataFrame) :
  [seq p.1 | p <- daily_stats df] = sort Z.leb (unique (map event_date df)).
Proof. by rewrite /daily_stats /groupby_size -map_comp map_id_in. Qed.

(** C4: [daily_stats] (computeTrendSeries) has an entry for a date
    exactly when some row falls on that date; the entry's count is the
    number of such rows and is never 0; the counts add up to the number
    of rows; the dates are strictly ascending, hence without repetition. *)
Theorem daily_stats_sparse_ascending (df : DataFrame) :
  [/\ [seq p.1 | p <- daily_stats df] =i [seq date_of (created_at e) | e <- df],
      forall p, p \in daily_stats df ->
        p.2 = count (fun e => date_of (created_at e) == p.1) df /\ 0 < p.2,
      sumn [seq p.2 | p <- daily_stats df] = size df,
      sorted Z.ltb [seq p.1 | p <- daily_stats df]
    & uniq [seq p.1 | p <- daily_stats df]].
Proof.
have dates : [seq p.1 | p <- daily_stats df] =i map event_date df.
  by move=> d; rewrite map_fst_daily_stats mem_sort mem_unique.
have udates : uniq [seq p.1 | p <- daily_stats df].
  by rewrite map_fst_daily_stats sort_uniq unique_uniq.
split=> //.
- move=> p pin; have := map_f fst pin; rewrite dates.
  case/mapP: pin => d _ -> /=; rewrite size_filter; split=> //.
  by rewrite -has_count; case/mapP: H => e edf ->; apply/hasP; exists e; rewrite ?eqxx.
- rewrite /daily_stats /groupby_size -map_comp.
  set ks := sort _ _.
  have <- := @sumn_group_counts_all _ _ event_date df ks.
  + by rewrite sort_uniq unique_uniq.
  + by move=> d; rewrite mem_sort mem_unique.
  + by congr (sumn _); apply: eq_map => d /=; rewrite size_filter.
- apply: pairwise_sorted.
  apply: (@sub_pairwise _ (fun a b => Z.leb a b && (a != b))).
    by move=> a b; rewrite Z_ltbE.
  apply: (sorted_uniq_pairwise Z_leb_trans udates).
  by rewrite map_fst_daily_stats; apply: (sort_sorted Z_leb_total).
Qed.

(** ** Status and message in the latest-run table *)



(** ** Further properties of the page *)

Section DropDuplicatesOrder.

Variables (R K : eqType).

Lemma drop_duplicates_from_subseq (col : R -> K) (seen : seq K) (df : seq R) :
  subseq (drop_duplicates_from col seen df) df.
Proof.
elim: df seen => [|e df IH] seen //=.
case: ifP => _ /=; last by rewrite eqxx IH.
by apply: subseq_trans (IH seen) (subseq_cons df e).
Qed.

End DropDuplicatesOrder.

Lemma latest_runs_subseq (df : DataFrame) :
  subseq (latest_runs df) (sort_values_desc created_at df).
Proof. exact: drop_duplicates_from_subseq. Qed.

Lemma latest_runs_uniq (df : DataFrame) : uniq (latest_runs df).
Proof.
apply: (@map_uniq _ _ task_name).
by rewrite map_drop_duplicates unique_uniq.
Qed.

Lemma size_latest_runs (df : DataFrame) : size (latest_runs df) = unique_scripts df.
Proof.
rewrite -(size_map task_name) map_drop_duplicates /unique_scripts /nunique.
by apply/perm_size/perm_unique; rewrite perm_map.
Qed.

(** X1: the latest-run table lists the tasks by the time of their last
    run, the most recent first. *)
Theorem table_data_most_recent_first (df : DataFrame) :
  sorted (descending created_at) (latest_runs df)
  /\ sorted (fun a b : Z => (b <=? a)%Z) [seq row_last_run r | r <- table_data df].
Proof.
have sorted_latest : sorted (descending created_at) (latest_runs df).
  apply: (subseq_sorted (@descending_trans _ _) (latest_runs_subseq df)).
  exact: sort_values_sorted.
split=> //.
by rewrite /table_data -map_comp sorted_map.
Qed.

(** X2: the Total Scripts metric is the number of rows of the latest-run
    table and of the statistics table, and the two tables list the same
    script names. *)
Theorem total_scripts_counts_table_rows (df : DataFrame) :
  [/\ size (table_data df) = unique_scripts df,
      size (script_stats df) = unique_scripts df
    & perm_eq [seq row_task_name r | r <- table_data df]
              [seq Script r | r <- script_stats df]].
Proof.
split.
- by rewrite /table_data size_map size_latest_runs.
- by rewrite /script_stats size_map size_sort.
- rewrite /table_data -map_comp map_Script_stats /sorted_scripts.
  rewrite perm_sym perm_sort perm_sym.
  rewrite (@eq_map _ _ _ task_name) // map_drop_duplicates.
  by apply: perm_unique; rewrite perm_map.
Qed.

Lemma sumn_script_counts (a : pred LogEvent) (df : DataFrame) :
  sumn [seq count (fun e => (task_name e == t) && a e) df | t <- sorted_scripts df]
  = count a df.
Proof.
rewrite -[RHS]size_filter.
have <- := @sumn_group_counts_all _ _ task_name [seq e <- df | a e] _
             (sorted_scripts_uniq df).
  move=> t /mapP [e]; rewrite mem_filter => /andP [_ edf] ->.
  by rewrite mem_sorted_scripts map_f.
congr (sumn _); apply: eq_map => t.
by rewrite count_filter; apply: eq_count => e /=; rewrite andbC.
Qed.

(** X3: the Success and Failed columns of the statistics table add up
    to the Success and Failed metrics of the whole frame. *)
Theorem script_stats_sum_to_metrics (df : DataFrame) :
  sumn [seq Success r | r <- script_stats df] = success_count df
  /\ sumn [seq Failed r | r <- script_stats df] = error_count df.
Proof.
rewrite /success_count /error_count !size_filter -!sumn_script_counts.
rewrite /script_stats -!map_comp.
by split; congr (sumn _); apply: eq_map => t; rewrite /comp script_rowE.
Qed.

(** *** The alert and the tables *)

Lemma mem_failed_scripts (df : DataFrame) (t : string) :
  (t \in failed_scripts df) = has (fun e => (task_name e == t) && is_error e) df.
Proof.
rewrite /failed_scripts mem_unique.
apply/mapP/hasP => [[e]|[e edf /andP [/eqP <- eerr]]].
  by rewrite mem_filter => /andP [eerr edf] ->; exists e; rewrite // eqxx.
by exists e; rewrite // mem_filter eerr.
Qed.

(** X6: the failed scripts of the alert are exactly the scripts whose
    row of the statistics table has a Failed count above 0. *)
Theorem failed_scripts_have_failed_runs (df : DataFrame) (t : string) :
  (t \in failed_scripts df)
  = has (fun r => (Script r == t) && (0 < Failed r)) (script_stats df).
Proof.
rewrite mem_failed_scripts; apply/idP/hasP => [failed|[r]].
- exists (script_row df t); last by rewrite script_rowE /= eqxx -has_count.
  apply/script_statsP; rewrite script_rowE /=; split=> //.
  by case/hasP: failed => e edf /andP [/eqP <- _]; apply: map_f.
- by move=> /script_statsP [_ ->]; rewrite script_rowE /= -has_count => /andP [/eqP ->].
Qed.

Lemma size_unique (K : eqType) (s : seq K) :
  size (unique s) <= size s /\ (size (unique s) == size s) = uniq s.
Proof.
have -> : size (unique s) = size (undup s).
  apply/perm_size/uniq_perm; rewrite ?unique_uniq ?undup_uniq //.
  by move=> x; rewrite mem_unique mem_undup.
split; first exact: size_undup.
by rewrite eqn_leq size_undup /= leqNgt ltn_size_undup negbK.
Qed.

(** X7: the error banner appears exactly when the Failed metric is above
    0 and announces that metric, a count of rows; the failed scripts it
    lists are at most that many, and exactly that many when no script
    failed twice. *)
Theorem alert_banner_counts_rows (df : DataFrame) :
  [/\ alert df = (if error_count df == 0 then AlertSuccess
                  else AlertError (error_count df) (failed_scripts df)),
      (failed_scripts df == [::]) = (error_count df == 0),
      size (failed_scripts df) <= error_count df
    & (size (failed_scripts df) == error_count df)
      = uniq [seq task_name e | e <- error_df df]].
Proof.
have countE : error_count df = size [seq task_name e | e <- error_df df].
  by rewrite size_map.
case: (size_unique [seq task_name e | e <- error_df df]) => le_size eq_size.
split; rewrite ?countE //.
- by rewrite /alert /nilp size_map; case: ifP.
- rewrite /failed_scripts size_map -!size_eq0 -(size_map task_name).
  by case: (error_df df).
Qed.

(** X8: a row of the latest-run table shows a message only for a script
    that the alert lists as failed; when the alert gives the all-clear,
    every row shows the placeholder. *)
Theorem table_messages_follow_alert (df : DataFrame) :
  all (fun r => (row_message r != "-"%string)
                ==> (row_task_name r \in failed_scripts df)) (table_data df)
  /\ (alert df = AlertSuccess ->
      all (fun r => row_message r == "-"%string) (table_data df)).
Proof.
have shown e : e \in df -> (shown_message e != "-"%string) ->
    is_error e && (task_name e \in failed_scripts df).
  move=> edf; rewrite /shown_message -/(is_error e); case eerr: (is_error e) => //= _.
  by rewrite mem_failed_scripts; apply/hasP; exists e; rewrite // eqxx.
split.
- rewrite /table_data all_map; apply/allP => e /latest_runs_sub edf /=.
  by apply/implyP => /(shown e edf) /andP [].
- rewrite /alert; case: ifP => // /nilP no_error _.
  rewrite /table_data all_map; apply/allP => e /latest_runs_sub edf /=.
  apply/negPn/negP => /(shown e edf) /andP [eerr _].
  have : e \in error_df df by rewrite mem_filter eerr.
  by rewrite no_error.
Qed.

(** *** Row order of the input *)

Lemma filter_size_perm (a : pred LogEvent) (df df' : DataFrame) :
  perm_eq df df' -> size [seq e <- df | a e] = size [seq e <- df' | a e].
Proof. by move=> /permP eq_count; rewrite !size_filter. Qed.

(** X9: the order of the rows of the input does not matter to the key
    metrics, to the daily trend, to the set of failed scripts or to the
    set of level counts. *)
Theorem views_ignore_row_order (df df' : DataFrame) :
  perm_eq df df' ->
  [/\ (total_runs df, success_count df, error_count df, unique_scripts df)
      = (total_runs df', success_count df', error_count df', unique_scripts df'),
      success_rate df = success_rate df',
      daily_stats df = daily_stats df',
      perm_eq (failed_scripts df) (failed_scripts df')
    & perm_eq (level_stats df) (level_stats df')].
Proof.
move=> dfdf'.
have counts : (total_runs df, success_count df, error_count df, unique_scripts df)
      = (total_runs df', success_count df', error_count df', unique_scripts df').
  rewrite /total_runs /success_count /error_count /unique_scripts /nunique.
  rewrite (perm_size dfdf') !(filter_size_perm _ dfdf').
  by rewrite (perm_size (perm_unique (perm_map task_name dfdf'))).
split=> //.
- by case: counts; rewrite /success_rate => -> -> _ _.
- rewrite /daily_stats /groupby_size.
  have -> : sort Z.leb (unique [seq event_date e | e <- df])
            = sort Z.leb (unique [seq event_date e | e <- df']).
    apply/(perm_sortP Z_leb_total Z_leb_trans Z_leb_antisym).
    by apply: perm_unique; rewrite perm_map.
  by apply: eq_map => d; rewrite (filter_size_perm _ dfdf').
- by apply: perm_unique; rewrite perm_map // perm_filter.
- rewrite /level_stats /value_counts.
  rewrite (perm_trans (sort_values_perm _ _)) // perm_sym.
  rewrite (perm_trans (sort_values_perm _ _)) // perm_sym.
  have eq_counts v : count_mem v [seq level e | e <- df]
                     = count_mem v [seq level e | e <- df'].
    by apply/permP; rewrite perm_map.
  rewrite (eq_map (g := fun v => (v, count_mem v [seq level e | e <- df']))).
    by move=> v; rewrite eq_counts.
  by apply: perm_map; apply: perm_unique; rewrite perm_map.
Qed.

(** *** Frames without ties *)

Lemma latest_runs_tasks (df : DataFrame) :
  map task_name (latest_runs df) =i map task_name df.
Proof.
move=> t; rewrite map_drop_duplicates mem_unique.
by apply: perm_mem; rewrite perm_map.
Qed.

(** X10: when no two rows of a task share a timestamp, the rows the
    latest-run table retains are exactly the rows that no other row of
    their task is later than, whatever order the sort gives. *)
Theorem latest_runs_without_ties (df : DataFrame) (e : LogEvent) :
  {in df &, forall a b, task_name a = task_name b ->
                        created_at a = created_at b -> a = b} ->
  (e \in latest_runs df)
  = (e \in df) && all (fun e' => (task_name e' == task_name e)
                                 ==> (created_at e' <=? created_at e)%Z) df.
Proof.
move=> no_ties; apply/idP/andP => [ein|[edf /allP emax]].
- split; first exact: latest_runs_sub.
  apply/allP => e' e'df; apply/implyP => /eqP same.
  by apply/Z.leb_le; apply: (latest_runs_max ein e'df same).
- have : task_name e \in map task_name (latest_runs df).
    by rewrite latest_runs_tasks map_f.
  case/mapP => e2 e2in same.
  have e2df := latest_runs_sub e2in.
  have le1 := latest_runs_max e2in edf same.
  have := emax e2 e2df; rewrite same eqxx /= => /Z.leb_le le2.
  rewrite (no_ties e e2) //.
  lia.
Qed.

(** *** The level distribution *)

Lemma level_stats_perm (df : DataFrame) :
  perm_eq (level_stats df)
    [seq (l, count (fun e => level e == l) df) | l <- unique (map level df)].
Proof.
rewrite /level_stats /value_counts (perm_trans (sort_values_perm _ _)) //.
rewrite (@eq_map _ _ _ (fun l => (l, count (fun e => level e == l) df))) //.
by move=> l; rewrite count_map.
Qed.

(** X11: the level distribution has one entry per level present in the
    frame and no other; the entry's count is the number of rows of that
    level, never 0; the entries come with the larger counts first. *)
Theorem level_stats_counts_descending (df : DataFrame) :
  [/\ [seq p.1 | p <- level_stats df] =i [seq level e | e <- df],
      uniq [seq p.1 | p <- level_stats df],
      forall p, p \in level_stats df ->
        p.2 = count (fun e => level e == p.1) df /\ 0 < p.2
    & sorted (fun p q : string * nat => q.2 <= p.2) (level_stats df)].
Proof.
have keys : perm_eq [seq p.1 | p <- level_stats df] (unique (map level df)).
  rewrite (perm_trans (perm_map _ (level_stats_perm df))) //.
  by rewrite -map_comp map_id_in.
split.
- by move=> l; rewrite (perm_mem keys) mem_unique.
- by rewrite (perm_uniq keys) unique_uniq.
- move=> p; rewrite (perm_mem (level_stats_perm df)) => /mapP [l lin ->] /=.
  split=> //; rewrite -has_count.
  move: lin; rewrite mem_unique => /mapP [e edf ->].
  by apply/hasP; exists e; rewrite /= ?eqxx.
- apply: sub_sorted (sort_values_sorted _ _) => p q.
  by rewrite /descending => /Z.leb_le /Nat2Z.inj_le /leP.
Qed.

(** ** Fetching *)

Lemma fetch_task_logsE (table : seq LogEvent) (now days : Z) :
  fetch_task_logs (Some table) now days
  = query_task_logs table (start_date now days) now.
Proof. by rewrite /fetch_task_logs /=; case: (query_task_logs _ _ _). Qed.

Lemma fetch_task_logs_perm (table : seq LogEvent) (now days : Z) :
  perm_eq (fetch_task_logs (Some table) now days)
          [seq e <- table | in_range (start_date now days) now e].
Proof. by rewrite fetch_task_logsE; apply: order_desc_perm. Qed.

Lemma in_range_widen (now days days' : Z) (e : LogEvent) :
  (days <= days')%Z ->
  in_range (start_date now days) now e -> in_range (start_date now days') now e.
Proof.
move=> le_days; rewrite /in_range => /andP [/Z.leb_le lo ->].
rewrite andbT; apply/Z.leb_le.
rewrite /start_date /ns_per_day in lo *; lia.
Qed.

(** X13: a longer time range fetches the rows of a shorter one and the
    rows between the two starts: the shorter fetch is the longer one
    restricted to the shorter range. *)
Theorem fetch_task_logs_range_grows (remote : option (seq LogEvent))
    (now days days' : Z) :
  (days <= days')%Z ->
  perm_eq (fetch_task_logs remote now days)
          [seq e <- fetch_task_logs remote now days'
                  | in_range (start_date now days) now e].
Proof.
move=> le_days; case: remote => [table|] //.
rewrite (perm_trans (fetch_task_logs_perm _ _ _)) // perm_sym.
rewrite (perm_trans (perm_filter _ (fetch_task_logs_perm _ _ _))) //.
rewrite -filter_predI (@eq_filter _ _ (in_range (start_date now days) now)) //.
move=> e /=; case inr: (in_range (start_date now days) now e) => //=.
by rewrite (in_range_widen le_days inr).
Qed.

(** X14: the page shows the dashboard exactly when the fetch answers and
    some row of the remote table lies in the time range; a fetch that
    raises, or finds no row, leaves the no-data warning. *)
Theorem dashboard_after_fetch (remote : option (seq LogEvent)) (now days : Z) :
  isSome (dashboard (fetch_task_logs remote now days))
  = (if remote is Some table
     then has (in_range (start_date now days) now) table else false).
Proof.
case: remote => [table|] //.
rewrite /dashboard /nilp (perm_size (fetch_task_logs_perm _ _ _)).
by rewrite size_filter has_count lt0n; case: eqP.
Qed.

Lemma date_of_start_date (now days : Z) :
  date_of (start_date now days) = (date_of now - days)%Z.
Proof.
rewrite /date_of /start_date.
have -> : (now - days * ns_per_day = now + (- days) * ns_per_day)%Z by lia.
by rewrite Z.div_add //; lia.
Qed.

Lemma date_of_mono (a b : Z) : (a <= b)%Z -> (date_of a <= date_of b)%Z.
Proof. by move=> ab; apply: Z.div_le_mono. Qed.

Lemma size_uniq_Z_range (s : seq Z) (lo : Z) (n : nat) :
  uniq s -> all (fun d => (lo <=? d)%Z && (d <=? lo + Z.of_nat n)%Z) s ->
  size s <= n.+1.
Proof.
move=> us /allP range.
have in_range_Z d : d \in s -> (lo <= d <= lo + Z.of_nat n)%Z.
  by move=> /range /andP [/Z.leb_le ? /Z.leb_le ?].
rewrite -(size_map (fun d => Z.to_nat (d - lo))) -(size_iota 0 n.+1).
apply: uniq_leq_size.
- rewrite map_inj_in_uniq // => a b /in_range_Z ra /in_range_Z rb eq_ab.
  have : (a - lo = b - lo)%Z by apply: Z2Nat.inj => //; lia.
  lia.
- move=> k /mapP [d /in_range_Z rd ->]; rewrite mem_iota /= add0n.
  apply/ltP; lia.
Qed.

(** X15: after a fetch over [days] days the daily trend has at most
    [days + 1] entries, and each of its dates lies between the date
    [days] days before [now] and the date of [now]. *)
Theorem daily_stats_after_fetch (remote : option (seq LogEvent)) (now days : Z) :
  (0 <= days)%Z ->
  let trend := daily_stats (fetch_task_logs remote now days) in
  size trend <= (Z.to_nat days).+1
  /\ forall p, p \in trend -> (date_of now - days <= p.1 <= date_of now)%Z.
Proof.
move=> days0 /=.
have in_window e : e \in fetch_task_logs remote now days ->
    (date_of now - days <= event_date e <= date_of now)%Z.
  case: remote => [table|] //.
  rewrite (perm_mem (fetch_task_logs_perm _ _ _)) mem_filter.
  move=> /andP [/andP [/Z.leb_le lo /Z.leb_le hi] _].
  by rewrite -date_of_start_date /event_date; split; apply: date_of_mono.
set df := fetch_task_logs remote now days in in_window *.
have dates d : d \in [seq p.1 | p <- daily_stats df] ->
    (date_of now - days <= d <= date_of now)%Z.
  rewrite map_fst_daily_stats mem_sort mem_unique => /mapP [e edf ->].
  exact: in_window.
split; last by move=> p pin; apply: dates; apply: map_f.
rewrite -(size_map fst); apply: (@size_uniq_Z_range _ (date_of now - days)%Z).
  by rewrite map_fst_daily_stats sort_uniq unique_uniq.
apply/allP => d /dates [lo hi]; apply/andP; split; apply/Z.leb_le; lia.
Qed.

(** *** The head of the latest-run table *)

(** X16: on a frame with rows the first row of the latest-run table is a
    row of the frame that no row is later than: the most recent run of
    all comes first. *)
Theorem table_data_head_most_recent (df : DataFrame) (e0 : LogEvent) :
  df <> [::] ->
  let first_run := head e0 (latest_runs df) in
  [/\ first_run \in df,
      forall e, e \in df -> (created_at e <= created_at first_run)%Z
    & ohead [seq row_last_run r | r <- table_data df] = Some (created_at first_run)].
Proof.
move=> nonempty /=.
have := sort_values_sorted created_at df.
have := mem_sort_values created_at df.
rewrite /table_data /latest_runs /drop_duplicates.
case: (sort_values_desc created_at df) => [|x s] /= mem_s.
  by case: df nonempty mem_s => // e df _ /(_ e); rewrite inE eqxx.
rewrite (path_sortedE (@descending_trans _ _)) => /andP [/allP xmax _].
split=> //; first by rewrite -mem_s inE eqxx.
move=> e; rewrite -mem_s inE => /orP [/eqP ->|/xmax /Z.leb_le //].
exact: Z.le_refl.
Qed.

(** *** Slices of the level distribution *)

(** X17: the counts of any group of levels in the level distribution
    add up to the number of rows with a level of the group; so the INFO
    entry carries the Success metric and the ERROR and CRITICAL entries
    together carry the Failed metric. *)
Theorem level_stats_slices (df : DataFrame) (a : pred string) :
  [/\ sumn [seq p.2 | p <- level_stats df & a p.1] = count (fun e => a (level e)) df,
      sumn [seq p.2 | p <- level_stats df & p.1 == INFO] = success_count df
    & sumn [seq p.2 | p <- level_stats df & p.1 \in [:: ERROR; CRITICAL]]
      = error_count df].
Proof.
have slice b : sumn [seq p.2 | p <- level_stats df & b p.1]
               = count (fun e => b (level e)) df.
  rewrite (perm_sumn (perm_map _ (perm_filter _ (level_stats_perm df)))).
  rewrite filter_map -map_comp.
  rewrite (@eq_map _ _ _ (fun l => count (fun e => level e == l) df)) //.
  rewrite sumn_group_counts; first by apply: filter_uniq; apply: unique_uniq.
  apply: eq_in_count => e edf /=.
  by rewrite mem_filter /= mem_unique map_f // andbT.
split; first exact: slice.
- by rewrite (slice (pred1 INFO)) /success_count size_filter.
- by rewrite (slice (mem [:: ERROR; CRITICAL])) /error_count size_filter.
Qed.

(** *** The rows of one task *)



(** ** The empty frame *)



End Dashboard.

(** ** The stable sort meets the contract of [sort_values] *)

Lemma stable_sort_values_perm (R : eqType) (by_ : R -> Z) (df : seq R) :
  perm_eq (stable_sort_values_desc by_ df) df.
Proof. by rewrite /stable_sort_values_desc perm_sort. Qed.

Lemma stable_sort_values_sorted (R : eqType) (by_ : R -> Z) (df : seq R) :
  sorted (descending by_) (stable_sort_values_desc by_ df).
Proof. exact: (sort_sorted (@descending_total _ _)). Qed.



(** ** Ties *)





(** ** The page on the sample frames *)

Example sample_latest_runs :
  latest_runs stable_sort_values_desc sample_df
  = [:: mkLogEvent "A" ERROR "boom" "scheduled" (at_time 0 11 0);
        mkLogEvent "B" INFO "ok" "manual" (at_time 0 10 30)].
Proof. by vm_compute. Qed.

Example sample_script_stats :
  [seq (Script r, TotalRuns r, Success r, Failed r, Qred (SuccessRate r))
     | r <- script_stats sample_df]
  = [:: ("A"%string, 2, 1, 1, 50%Q); ("B"%string, 1, 1, 0, 100%Q)].
Proof. by vm_compute. Qed.

Example sample_alert :
  alert sample_df = AlertError 1 [:: "A"%string]
  /\ computeAlertState sample_df = mkAlertState true [:: "A"%string].
Proof. by vm_compute. Qed.

Example sample_table :
  [seq (row_task_name r, row_status r, row_message r)
     | r <- table_data stable_sort_values_desc sample_df]
  = [:: ("A"%string, "❌ ERROR"%string, "boom"%string);
        ("B"%string, "✅ Success"%string, "-"%string)].
Proof. by vm_compute. Qed.

Example warning_views :
  [/\ level_stats stable_sort_values_desc warning_df = [:: (WARNING, 3)],
      [seq (Script r, TotalRuns r, Success r, Failed r, Qred (SuccessRate r))
         | r <- script_stats warning_df]
      = [:: ("A"%string, 2, 0, 0, 0%Q); ("B"%string, 1, 0, 0, 0%Q)],
      computeAlertState warning_df = mkAlertState false [::],
      daily_stats warning_df = [:: (0%Z, 1); (2%Z, 2)]
    & [seq (row_task_name r, row_status r, row_message r)
         | r <- table_data stable_sort_values_desc warning_df]
      = [:: ("A"%string, "❌ WARNING"%string, "-"%string);
            ("B"%string, "❌ WARNING"%string, "-"%string)]].
Proof. by vm_compute. Qed.

Example tie_latest_runs :
  latest_runs stable_sort_values_desc tie_df = [:: tie_first].
Proof. by vm_compute. Qed.

(** ** The theorems at the sample frames *)

Lemma latest_runs_one_per_task_max_witness :
  let latest := latest_runs stable_sort_values_desc in
  latest [::] = [::] /\
  [/\ uniq (map task_name (latest sample_df)),
      map task_name (latest sample_df) =i map task_name sample_df,
      size (latest sample_df) = size (undup (map task_name sample_df)),
      forall e, e \in latest sample_df ->
        e \in sample_df /\
        forall e', e' \in sample_df -> task_name e' = task_name e ->
          (created_at e' <= created_at e)%Z
    & exists sorted_df,
        [/\ perm_eq sorted_df sample_df, sorted (descending created_at) sorted_df
          & latest sample_df = drop_duplicates task_name sorted_df]].
Proof.
exact: (latest_runs_one_per_task_max stable_sort_values_perm
          stable_sort_values_sorted sample_df).
Defined.




Lemma script_stats_counts_witness :
  let t : string := "A"%string in
  t \in map task_name sample_df /\
  exists r,
    [/\ [seq r' <- script_stats sample_df | Script r' == t] = [:: r],
        TotalRuns r = count (fun e => task_name e == t) sample_df,
        Success r = count (fun e => (task_name e == t) && (level e == INFO)) sample_df,
        Failed r = count (fun e => (task_name e == t)
                     && ((level e == ERROR) || (level e == CRITICAL))) sample_df
      & [/\ SuccessRate r =
              (if TotalRuns r == 0 then 0%Q
               else (inject_Z (Z.of_nat (Success r))
                     / inject_Z (Z.of_nat (TotalRuns r)) * 100)%Q),
            forall success, rate success 0 = 0%Q
          & TotalRuns r = Success r + Failed r
              + count (fun e => (task_name e == t)
                  && (level e \notin [:: INFO; ERROR; CRITICAL])) sample_df]].
Proof.
have present : "A"%string \in map task_name sample_df by vm_compute.
split; first exact: present.
exact: (script_stats_counts present).
Defined.

Lemma views_agree_on_total_runs_witness :
  [/\ sumn [seq p.2 | p <- level_stats stable_sort_values_desc sample_df]
        = total_runs sample_df,
      sumn [seq TotalRuns r | r <- script_stats sample_df] = total_runs sample_df,
      total_runs sample_df = size sample_df
    & forall page, dashboard stable_sort_values_desc sample_df = Some page ->
        sumn [seq p.2 | p <- page_levels page] = page_total_runs page
        /\ sumn [seq TotalRuns r | r <- page_script_stats page] = page_total_runs page].
Proof. exact: (views_agree_on_total_runs stable_sort_values_perm sample_df). Defined.

Lemma script_stats_sorted_perm_invariant_witness :
  perm_eq sample_df sample_df_shuffled /\
  [/\ script_stats sample_df = script_stats sample_df_shuffled,
      sorted String.leb [seq Script r | r <- script_stats sample_df]
    & sorted String.ltb [seq Script r | r <- script_stats sample_df]].
Proof.
have shuffled : perm_eq sample_df sample_df_shuffled by vm_compute.
split; first exact: shuffled.
exact: (script_stats_sorted_perm_invariant shuffled).
Defined.



(** ** The further properties at the sample frames *)

Example sample_fetch :
  fetch_task_logs stable_sort_values_desc (Some remote_rows) sample_now 2
  = [:: mkLogEvent "A" INFO "ok" "manual" (at_time 5 9 30);
        mkLogEvent "B" ERROR "boom" "scheduled" (at_time 4 8 0)]
  /\ fetch_task_logs stable_sort_values_desc None sample_now 2 = [::].
Proof. by vm_compute. Qed.

Lemma table_data_most_recent_first_witness :
  sorted (descending created_at) (latest_runs stable_sort_values_desc sample_df)
  /\ sorted (fun a b : Z => (b <=? a)%Z)
       [seq row_last_run r | r <- table_data stable_sort_values_desc sample_df].
Proof. exact: (table_data_most_recent_first stable_sort_values_sorted sample_df). Defined.

Lemma total_scripts_counts_table_rows_witness :
  [/\ size (table_data stable_sort_values_desc sample_df) = unique_scripts sample_df,
      size (script_stats sample_df) = unique_scripts sample_df
    & perm_eq [seq row_task_name r | r <- table_data stable_sort_values_desc sample_df]
              [seq Script r | r <- script_stats sample_df]].
Proof. exact: (total_scripts_counts_table_rows stable_sort_values_perm sample_df). Defined.

Lemma table_messages_follow_alert_witness :
  all (fun r => (row_message r != "-"%string)
                ==> (row_task_name r \in failed_scripts sample_df))
      (table_data stable_sort_values_desc sample_df)
  /\ (alert sample_df = AlertSuccess ->
      all (fun r => row_message r == "-"%string)
          (table_data stable_sort_values_desc sample_df)).
Proof. exact: (table_messages_follow_alert stable_sort_values_perm sample_df). Defined.

Lemma views_ignore_row_order_witness :
  perm_eq sample_df sample_df_shuffled /\
  [/\ (total_runs sample_df, success_count sample_df, error_count sample_df,
       unique_scripts sample_df)
      = (total_runs sample_df_shuffled, success_count sample_df_shuffled,
         error_count sample_df_shuffled, unique_scripts sample_df_shuffled),
      success_rate sample_df = success_rate sample_df_shuffled,
      daily_stats sample_df = daily_stats sample_df_shuffled,
      perm_eq (failed_scripts sample_df) (failed_scripts sample_df_shuffled)
    & perm_eq (level_stats stable_sort_values_desc sample_df)
              (level_stats stable_sort_values_desc sample_df_shuffled)].
Proof.
have shuffled : perm_eq sample_df sample_df_shuffled by vm_compute.
split; first exact: shuffled.
exact: (views_ignore_row_order stable_sort_values_perm shuffled).
Defined.

Lemma sample_df_no_ties :
  {in sample_df &, forall a b : LogEvent,
     task_name a = task_name b -> created_at a = created_at b -> a = b}.
Proof.
by move=> a b; rewrite !inE => /or3P [] /eqP -> /or3P [] /eqP ->.
Qed.

Lemma latest_runs_without_ties_witness :
  let e := mkLogEvent "A" ERROR "boom" "scheduled" (at_time 0 11 0) in
  (e \in latest_runs stable_sort_values_desc sample_df)
  = (e \in sample_df)
    && all (fun e' => (task_name e' == task_name e)
                      ==> (created_at e' <=? created_at e)%Z) sample_df.
Proof.
exact: (latest_runs_without_ties stable_sort_values_perm stable_sort_values_sorted
          (mkLogEvent "A" ERROR "boom" "scheduled" (at_time 0 11 0))
          sample_df_no_ties).
Defined.

Lemma level_stats_counts_descending_witness :
  let levels := level_stats stable_sort_values_desc sample_df in
  [/\ [seq p.1 | p <- levels] =i [seq level e | e <- sample_df],
      uniq [seq p.1 | p <- levels],
      forall p, p \in levels ->
        p.2 = count (fun e => level e == p.1) sample_df /\ 0 < p.2
    & sorted (fun p q : string * nat => q.2 <= p.2) levels].
Proof.
exact: (level_stats_counts_descending stable_sort_values_perm
          stable_sort_values_sorted sample_df).
Defined.

Lemma fetch_task_logs_range_grows_witness :
  (2 <= 7)%Z /\
  perm_eq (fetch_task_logs stable_sort_values_desc (Some remote_rows) sample_now 2)
          [seq e <- fetch_task_logs stable_sort_values_desc (Some remote_rows) sample_now 7
                  | in_range (start_date sample_now 2) sample_now e].
Proof.
have le_days : (2 <= 7)%Z by lia.
split; first exact: le_days.
exact: (fetch_task_logs_range_grows stable_sort_values_perm (Some remote_rows)
          sample_now le_days).
Defined.

Lemma dashboard_after_fetch_witness :
  isSome (dashboard stable_sort_values_desc
            (fetch_task_logs stable_sort_values_desc (Some remote_rows) sample_now 2))
  = has (in_range (start_date sample_now 2) sample_now) remote_rows.
Proof.
exact: (dashboard_after_fetch stable_sort_values_desc stable_sort_values_perm
          (Some remote_rows) sample_now 2).
Defined.

Lemma daily_stats_after_fetch_witness :
  (0 <= 2)%Z /\
  let trend :=
    daily_stats (fetch_task_logs stable_sort_values_desc (Some remote_rows) sample_now 2) in
  size trend <= (Z.to_nat 2).+1
  /\ forall p, p \in trend -> (date_of sample_now - 2 <= p.1 <= date_of sample_now)%Z.
Proof.
have days0 : (0 <= 2)%Z by lia.
split; first exact: days0.
exact: (daily_stats_after_fetch stable_sort_values_perm (Some remote_rows)
          sample_now days0).
Defined.

Lemma table_data_head_most_recent_witness :
  let e0 := mkLogEvent "" "" "" "" 0 in
  sample_df <> [::] /\
  let first_run := head e0 (latest_runs stable_sort_values_desc sample_df) in
  [/\ first_run \in sample_df,
      forall e, e \in sample_df -> (created_at e <= created_at first_run)%Z
    & ohead [seq row_last_run r | r <- table_data stable_sort_values_desc sample_df]
      = Some (created_at first_run)].
Proof.
have nonempty : sample_df <> [::] by [].
split; first exact: nonempty.
exact: (table_data_head_most_recent stable_sort_values_perm stable_sort_values_sorted
          (mkLogEvent "" "" "" "" 0) nonempty).
Defined.

Lemma level_stats_slices_witness :
  let levels := level_stats stable_sort_values_desc sample_df in
  let a : pred string := fun l => l != WARNING in
  [/\ sumn [seq p.2 | p <- levels & a p.1] = count (fun e => a (level e)) sample_df,
      sumn [seq p.2 | p <- levels & p.1 == INFO] = success_count sample_df
    & sumn [seq p.2 | p <- levels & p.1 \in [:: ERROR; CRITICAL]]
      = error_count sample_df].
Proof.
exact: (level_stats_slices stable_sort_values_perm sample_df (fun l => l != WARNING)).
Defined.
